(** * Metrics broadcast server (server/app/main.py): a shallow embedding

    The module-level state of [main.py] is the set [clients] of live
    websockets, the cumulative I/O counters [last_io_stats] kept by
    [get_metrics], and (for observation only) a count of sampling calls and
    a log of the transport actions the code performs ([send_text] attempts
    and [close] attempts).

    Coroutines run on one event loop; other tasks only run at an [await].
    Each [await] of the code is modelled as a point where the environment
    may apply registry mutations made by other tasks (connection handlers
    adding or discarding their websocket) and may deliver a cancellation. *)

From Stdlib Require Import List Ascii String Bool ZArith QArith Qround Lia Lqa.
Import ListNotations.



(** ** Python exceptions

    [asyncio.CancelledError] derives from [BaseException] (Python >= 3.8),
    so [except Exception] does not catch it; every other exception the code
    can meet is an [Exception]. *)

Inductive exn : Type :=
| CancelledError
| WebSocketDisconnect
| PyError (cls : string) (msg : string).

Definition is_exception (x : exn) : bool :=
  match x with
  | CancelledError => false
  | _ => true
  end.

(** [str(e)] *)
Definition py_str (x : exn) : string :=
  match x with
  | PyError _ msg => msg
  | _ => EmptyString
  end.

Inductive res (A : Type) : Type :=
| Ok (a : A)
| Err (x : exn).
Arguments Ok {A} a.
Arguments Err {A} x.

(** ** Metrics sampling ([get_metrics], lines 61-95) *)

(** A psutil call either returns or raises an [Exception] (OSError, ...). *)
Inductive call (A : Type) : Type :=
| Returns (a : A)
| Raises (cls : string) (msg : string).
Arguments Returns {A} a.
Arguments Raises {A} cls msg.

Definition from_call {A} (c : call A) : res A :=
  match c with
  | Returns a => Ok a
  | Raises cls msg => Err (PyError cls msg)
  end.

(** [psutil.disk_io_counters()] result: the two byte counters read. *)
Record io_counters := mkIo {
  read_bytes : Z;
  write_bytes : Z }.

(** One call of [get_metrics] sees these results of its psutil calls and
    this [datetime.now().isoformat()]. [disk_io_counters] may return None. *)
Record sample_env := mkSampleEnv {
  cpu_percent : call Q;
  virtual_memory_percent : call Q;
  disk_usage_percent : call Q;
  disk_io_counters : call (option io_counters);
  now_iso : string }.

(** The dict returned by [get_metrics]; [error] is the optional key. *)
Record metrics := mkMetrics {
  cpu : Q;
  memory : Q;
  disk : Q;
  disk_read : Q;
  disk_write : Q;
  error : option string;
  timestamp : string }.

(** [round(x, 2)]: round half to even at the second decimal. Floats are
    modelled by exact rationals. *)
Definition round_half_even (x : Q) : Z :=
  let f := Qfloor x in
  match Qcompare (x - inject_Z f) (1 # 2) with
  | Lt => f
  | Gt => (f + 1)%Z
  | Eq => if Z.even f then f else (f + 1)%Z
  end.

Definition py_round2 (x : Q) : Q := round_half_even (x * 100) # 100.

(** [a / b] on a float divisor. *)
Definition true_div (a b : Q) : res Q :=
  if Qeq_bool b 0 then Err (PyError "ZeroDivisionError" "float division by zero")
  else Ok (a / b).

(** Attribute access on a value that may be [None]. *)
Definition attr {A} (o : option A) (name : string) : res A :=
  match o with
  | Some a => Ok a
  | None => Err (PyError "AttributeError"
                   ("'NoneType' object has no attribute '" ++ name ++ "'")%string)
  end.

Definition res_bind {A B} (m : res A) (k : A -> res B) : res B :=
  match m with
  | Ok a => k a
  | Err x => Err x
  end.

Notation "x <-? m ;; k" := (res_bind m (fun x => k))
  (at level 61, m at next level, right associativity).

Section Sampling.

Variable UPDATE_INTERVAL : Q.

(** The body of the [try] block, lines 65-85. On success it also returns
    [current_io_stats], the value assigned to [last_io_stats] at line 76;
    nothing after that assignment can raise. *)
Definition get_metrics_try (last_io : option io_counters) (env : sample_env)
  : res (metrics * io_counters) :=
  c <-? from_call (cpu_percent env) ;;
  mem <-? from_call (virtual_memory_percent env) ;;
  du <-? from_call (disk_usage_percent env) ;;
  cur_opt <-? from_call (disk_io_counters env) ;;
  cur <-? attr cur_opt "read_bytes" ;;
  prev <-? attr last_io "read_bytes" ;;
  let rb := (read_bytes cur - read_bytes prev)%Z in
  let wb := (write_bytes cur - write_bytes prev)%Z in
  read_speed <-? true_div (inject_Z rb) UPDATE_INTERVAL ;;
  write_speed <-? true_div (inject_Z wb) UPDATE_INTERVAL ;;
  Ok ({| cpu := py_round2 c;
         memory := py_round2 mem;
         disk := py_round2 du;
         disk_read := py_round2 read_speed;
         disk_write := py_round2 write_speed;
         error := None;
         timestamp := now_iso env |}, cur).

(** The [except Exception as e] branch, lines 87-95. *)
Definition error_record (x : exn) (env : sample_env) : metrics :=
  {| cpu := 0; memory := 0; disk := 0; disk_read := 0; disk_write := 0;
     error := Some (py_str x);
     timestamp := now_iso env |}.

(** [get_metrics()]: its result (or the exception it raises) and the new
    value of the global [last_io_stats]. *)
Definition get_metrics (last_io : option io_counters) (env : sample_env)
  : res metrics * option io_counters :=
  match get_metrics_try last_io env with
  | Ok (m, cur) => (Ok m, Some cur)
  | Err x =>
      if is_exception x then (Ok (error_record x env), last_io)
      else (Err x, last_io)
  end.

End Sampling.

(** ** The registry [clients: Set[WebSocket]] (line 56)

    A websocket is identified by a number. The set is a duplicate-free list
    whose order is the set's iteration order ([list(clients)]); CPython's
    [set.discard] leaves the iteration order of the other members as it was. *)

Definition Conn := nat.
Bind Scope nat_scope with Conn.

Definition set_add (ws : Conn) (r : list Conn) : list Conn :=
  if existsb (Nat.eqb ws) r then r else r ++ [ws].

Definition set_discard (ws : Conn) (r : list Conn) : list Conn :=
  filter (fun x => negb (Nat.eqb x ws)) r.

(** A registry mutation made by another task while this one is suspended. *)
Inductive reg_op : Type :=
| RAdd (ws : Conn)
| RDiscard (ws : Conn).

Definition apply_op (r : list Conn) (o : reg_op) : list Conn :=
  match o with
  | RAdd ws => set_add ws r
  | RDiscard ws => set_discard ws r
  end.

Definition apply_ops (ops : list reg_op) (r : list Conn) : list Conn :=
  fold_left apply_op ops r.

(** ** Process state and the state/exception monad *)

(** [json.dumps(metrics)] is modelled as the record itself. *)
Definition message := metrics.
Definition json_dumps (m : metrics) : message := m.

(** Transport actions, in the order the code issues them. *)
Inductive action : Type :=
| ASend (ws : Conn) (msg : message)   (* [ws.send_text(message)] attempted *)
| AClose (ws : Conn).                (* [ws.close()] attempted *)

Record state := mkState {
  clients : list Conn;
  last_io_stats : option io_counters;
  sample_calls : nat;
  log : list action }.

Definition M (A : Type) : Type := state -> res A * state.

Definition ret {A} (a : A) : M A := fun s => (Ok a, s).
Definition raise {A} (x : exn) : M A := fun s => (Err x, s).
Definition bind {A B} (m : M A) (k : A -> M B) : M B :=
  fun s => match m s with
           | (Ok a, s') => k a s'
           | (Err x, s') => (Err x, s')
           end.

Notation "x <- m ;; k" := (bind m (fun x => k))
  (at level 61, m at next level, right associativity).
Notation "m ;;; k" := (bind m (fun _ => k))
  (at level 61, right associativity).

Definition get_clients : M (list Conn) := fun s => (Ok (clients s), s).

Definition modify_clients (f : list Conn -> list Conn) : M unit :=
  fun s => (Ok tt, {| clients := f (clients s); last_io_stats := last_io_stats s;
                      sample_calls := sample_calls s; log := log s |}).

Definition emit (a : action) : M unit :=
  fun s => (Ok tt, {| clients := clients s; last_io_stats := last_io_stats s;
                      sample_calls := sample_calls s; log := log s ++ [a] |}).

(** An [await] at which other tasks apply [ops] to the registry and at
    which a cancellation may be delivered. *)
Definition await_point (ops : list reg_op) (cancelled : bool) : M unit :=
  modify_clients (apply_ops ops) ;;;
  if cancelled then raise CancelledError else ret tt.

(** [try: await ws.close() except Exception: pass]; [close_out ws] is the
    outcome of the close ([None]: it returned). *)
Definition close_swallow (close_out : Conn -> option exn) (ws : Conn) : M unit :=
  emit (AClose ws) ;;;
  match close_out ws with
  | None => ret tt
  | Some x => if is_exception x then ret tt else raise x
  end.

Section Broadcast.

Variable UPDATE_INTERVAL : Q.

(** [metrics = get_metrics()], counting the call. *)
Definition sample (env : sample_env) : M metrics :=
  fun s =>
    let (r, io) := get_metrics UPDATE_INTERVAL (last_io_stats s) env in
    (r, {| clients := clients s; last_io_stats := io;
           sample_calls := S (sample_calls s); log := log s |}).

(** What one tick meets: registry mutations by other tasks and possible
    cancellation at the interval sleep and at the [gather], the psutil
    results, the outcome of each [send_text] ([None]: it returned) as
    [gather(..., return_exceptions=True)] collects it, and the outcome of
    each [close]. Other tasks' mutations during the prune's [close] awaits
    are not modelled. *)
Record tick_env := mkTickEnv {
  sleep_ops : list reg_op;
  cancel_in_sleep : bool;
  sampling : sample_env;
  gather_ops : list reg_op;
  cancel_in_gather : bool;
  send_out : Conn -> option exn;
  close_out : Conn -> option exn }.

(** [isinstance(res, Exception)] *)
Definition is_failure (r : option exn) : bool :=
  match r with
  | Some x => is_exception x
  | None => false
  end.

(** The [send_coros] list comprehension: one [safe_send] per member. *)
Fixpoint issue_sends (snap : list Conn) (msg : message) : M unit :=
  match snap with
  | [] => ret tt
  | ws :: rest => emit (ASend ws msg) ;;; issue_sends rest msg
  end.

(** [for ws, res in zip(list(clients), results): ...], lines 109-115. *)
Fixpoint prune (close_out : Conn -> option exn) (pairs : list (Conn * option exn))
  : M unit :=
  match pairs with
  | [] => ret tt
  | (ws, r) :: rest =>
      (if is_failure r
       then close_swallow close_out ws ;;; modify_clients (set_discard ws)
       else ret tt) ;;;
      prune close_out rest
  end.

(** The sequence of [list(clients)] used for the zip at line 109: the
    registry as it is when [gather] returns. *)
Definition zip_pairs (live : list Conn) (results : list (option exn))
  : list (Conn * option exn) :=
  combine live results.

(** One iteration of [while True:], lines 102-115. *)
Definition tick (e : tick_env) : M unit :=
  await_point (sleep_ops e) (cancel_in_sleep e) ;;;
  cs <- get_clients ;;
  match cs with
  | [] => ret tt
  | _ :: _ =>
      m <- sample (sampling e) ;;
      let msg := json_dumps m in
      snap <- get_clients ;;
      issue_sends snap msg ;;;
      let results := map (send_out e) snap in
      await_point (gather_ops e) (cancel_in_gather e) ;;;
      live <- get_clients ;;
      prune (close_out e) (zip_pairs live results)
  end.

End Broadcast.

(** How the loop ends: it returned, it raised, or it is still running when
    the modelled ticks run out. *)
Inductive outcome : Type :=
| Returned
| Raised (x : exn)
| Running.

(** [except asyncio.CancelledError: return], line 116. *)
Definition loop_handler (x : exn) : outcome :=
  match x with
  | CancelledError => Returned
  | _ => Raised x
  end.

(** [broadcast_metrics_loop()] run over a sequence of ticks. *)
Fixpoint broadcast_metrics_loop (UPDATE_INTERVAL : Q) (envs : list tick_env)
  (s : state) : outcome * state :=
  match envs with
  | [] => (Running, s)
  | e :: rest =>
      match tick UPDATE_INTERVAL e s with
      | (Ok _, s') => broadcast_metrics_loop UPDATE_INTERVAL rest s'
      | (Err x, s') => (loop_handler x, s')
      end
  end.

(** ** Connection handler ([websocket_endpoint], lines 159-176) *)

(** [try: body except ...: handler finally: fin]. *)
Definition try_except_finally (body : M unit) (handler : exn -> M unit)
  (fin : M unit) : M unit :=
  fun s =>
    match body s with
    | (Ok _, s1) => fin s1
    | (Err x, s1) =>
        match handler x s1 with
        | (Ok _, s2) => fin s2
        | (Err y, s2) =>
            match fin s2 with
            | (Ok _, s3) => (Err y, s3)
            | r => r
            end
        end
    end.

(** What one handler meets: the outcome of [websocket.accept()], the
    registry mutations other tasks make while it waits in each
    [receive_text()] that returns a frame, those during the final wait, and
    the exception that final [receive_text()] raises. *)
Record handler_env := mkHandlerEnv {
  accept_out : option exn;
  inbound : list (list reg_op);
  closing_ops : list reg_op;
  recv_end : exn }.

(** [while True: await websocket.receive_text()]: frames are discarded. *)
Fixpoint receive_loop (frames : list (list reg_op)) (last_ops : list reg_op)
  (x : exn) : M unit :=
  match frames with
  | [] => modify_clients (apply_ops last_ops) ;;; raise x
  | ops :: rest => modify_clients (apply_ops ops) ;;; receive_loop rest last_ops x
  end.

(** [except WebSocketDisconnect: pass] and [except Exception: pass]. *)
Definition endpoint_handler (x : exn) : M unit :=
  match x with
  | WebSocketDisconnect => ret tt
  | _ => if is_exception x then ret tt else raise x
  end.

(** [finally: if websocket in clients: clients.discard(websocket)]. *)
Definition endpoint_finally (ws : Conn) : M unit :=
  cs <- get_clients ;;
  if existsb (Nat.eqb ws) cs then modify_clients (set_discard ws) else ret tt.

Definition websocket_endpoint (ws : Conn) (h : handler_env) : M unit :=
  match accept_out h with
  | Some x => raise x
  | None => ret tt
  end ;;;
  modify_clients (set_add ws) ;;;
  try_except_finally (receive_loop (inbound h) (closing_ops h) (recv_end h))
    endpoint_handler (endpoint_finally ws).

(** ** Shutdown hook ([on_shutdown], lines 141-156) *)

(** The broadcast task as the shutdown hook finds it: [Suspended] is the
    loop parked at one of its awaits (sleep, gather or a close), all of
    which lie inside its [try ... except asyncio.CancelledError]; the loop
    only ends through that handler, so a [Finished] task returned [None]. *)
Inductive task_status : Type :=
| Suspended
| Finished.

(** [broadcast_task.cancel(); await broadcast_task]: the [CancelledError]
    is raised at the pending await and handled by [loop_handler]. *)
Definition cancel_and_await (t : task_status) : M unit :=
  match t with
  | Suspended =>
      match loop_handler CancelledError with
      | Raised x => raise x
      | _ => ret tt
      end
  | Finished => ret tt
  end.

(** [try: m except Exception: pass]. *)
Definition try_except_exception (m : M unit) : M unit :=
  fun s =>
    match m s with
    | (Err x, s') => if is_exception x then (Ok tt, s') else (Err x, s')
    | r => r
    end.

(** [for ws in list(clients): try: await ws.close() except Exception: pass] *)
Fixpoint close_all (close_out : Conn -> option exn) (cs : list Conn) : M unit :=
  match cs with
  | [] => ret tt
  | ws :: rest => close_swallow close_out ws ;;; close_all close_out rest
  end.

(** [broadcast_task] is [None] or a task. *)
Definition on_shutdown (broadcast_task : option task_status)
  (close_out : Conn -> option exn) : M unit :=
  match broadcast_task with
  | Some t => try_except_exception (cancel_and_await t)
  | None => ret tt
  end ;;;
  cs <- get_clients ;;
  close_all close_out cs ;;;
  modify_clients (fun _ => []).

(** ** Startup hook ([on_startup], lines 125-138)

    Under [broadcast_lock], a task is created when the slot holds [None] or
    a task that is [done()]; nothing is awaited between the test and the
    creation. The result is the new slot and whether a task was created. *)
Definition on_startup (broadcast_task : option task_status)
  : option task_status * bool :=
  match broadcast_task with
  | None => (Some Suspended, true)
  | Some Finished => (Some Suspended, true)
  | Some Suspended => (Some Suspended, false)
  end.

(** [n] successive startup hooks, no task finishing in between: the final
    slot and the number of tasks created. *)
Fixpoint startups (n : nat) (bt : option task_status) : option task_status * nat :=
  match n with
  | O => (bt, O)
  | S k =>
      let (bt1, created) := on_startup bt in
      let (bt2, more) := startups k bt1 in
      (bt2, ((if created then 1 else 0) + more)%nat)
  end.

(** ** Configuration: [ALLOWED_ORIGINS] (line 15)

    [os.getenv("ALLOWED_ORIGINS", "http://localhost:3000").split(",")]:
    Python's [str.split] with a one-character separator, which keeps empty
    fields and returns [[""]] on the empty string. *)
Fixpoint py_split_comma (s : string) : list string :=
  match s with
  | EmptyString => [EmptyString]
  | String c rest =>
      let parts := py_split_comma rest in
      if Ascii.eqb c ","%char then EmptyString :: parts
      else match parts with
           | [] => [String c EmptyString]
           | h :: t => String c h :: t
           end
  end.

Definition allowed_origins (env_value : option string) : list string :=
  py_split_comma (match env_value with
                  | Some v => v
                  | None => "http://localhost:3000"
                  end).

Fixpoint count_commas (s : string) : nat :=
  match s with
  | EmptyString => O
  | String c rest => ((if Ascii.eqb c ","%char then 1 else 0) + count_commas rest)%nat
  end.

(** ** Concrete inputs *)

Definition ex_io_prev : io_counters := mkIo 100 50.
Definition ex_io_cur : io_counters := mkIo 1100 1050.

Definition ex_sampling : sample_env :=
  mkSampleEnv (Returns (125 # 10)) (Returns 40) (Returns 55)
    (Returns (Some ex_io_cur)) "2026-10-16T12:00:00".

(** psutil finds no disk: [disk_io_counters()] returns None. *)
Definition ex_sampling_nodisk : sample_env :=
  mkSampleEnv (Returns (125 # 10)) (Returns 40) (Returns 55)
    (Returns None) "2026-10-16T12:00:00".

(** The cumulative counters read lower than the stored ones. *)
Definition ex_sampling_reset : sample_env :=
  mkSampleEnv (Returns (125 # 10)) (Returns 40) (Returns 55)
    (Returns (Some ex_io_prev)) "2026-10-16T12:00:00".

(** Two subscribers, iterated as [1; 2]. *)
Definition ex_state : state := mkState [1%nat; 2%nat] (Some ex_io_prev) 0 [].

Definition ex_send_fail : exn := PyError "RuntimeError" "send failed".

(** A tick in which subscriber 1's peer disconnects while the fan-out is
    awaited (its handler discards it), after 1's send went through, and
    subscriber 2's send fails. *)
Definition ex_race_env : tick_env :=
  mkTickEnv [] false ex_sampling [RDiscard 1] false
    (fun ws => if Nat.eqb ws 2 then Some ex_send_fail else None)
    (fun _ => None).

(** The same failing send of subscriber 2, with no registry change by
    other tasks during the tick. *)
Definition ex_fail_env : tick_env :=
  mkTickEnv [] false ex_sampling [] false
    (fun ws => if Nat.eqb ws 2 then Some ex_send_fail else None)
    (fun _ => None).

(** A tick with no registry change during the sleep. *)
Definition ex_quiet_env (sm : sample_env) : tick_env :=
  mkTickEnv [] false sm [] false (fun _ => None) (fun _ => None).

(** A handler whose final [receive_text()] fails with a transport error. *)
Definition ex_transport_error : handler_env :=
  mkHandlerEnv None [[]] [] (PyError "RuntimeError" "transport error").

Definition ex_close_fail : Conn -> option exn :=
  fun _ => Some (PyError "RuntimeError" "close failed").

(** A cancellation reaches the tick: at the sleep, at the gather, or through
    a [close] of the prune. *)
Definition tick_cancelled (e : tick_env) : Prop :=
  cancel_in_sleep e = true \/ cancel_in_gather e = true \/
  exists ws, close_out e ws = Some CancelledError.

(** The record [get_metrics] returns at the concrete input. *)
Definition ex_metrics : metrics :=
  Eval cbv in
    match fst (get_metrics 2 (Some ex_io_prev) ex_sampling) with
    | Ok m => m
    | Err _ => error_record CancelledError ex_sampling
    end.

(** The record sampled after the counters went down from [ex_io_cur]. *)
Definition ex_metrics_reset : metrics :=
  Eval cbv in
    match fst (get_metrics 2 (Some ex_io_cur) ex_sampling_reset) with
    | Ok m => m
    | Err _ => error_record CancelledError ex_sampling_reset
    end.

(** ** Proofs *)

(** *** Which exceptions a computation can raise *)

Definition raises_only {A} (P : Prop) (m : M A) : Prop :=
  forall s x s', m s = (Err x, s') -> x = CancelledError /\ P.

Lemma ro_ret {A} P (a : A) : raises_only P (ret a).
Proof. intros s x s' H; discriminate H. Qed.

Lemma ro_bind {A B} P (m : M A) (k : A -> M B) :
  raises_only P m -> (forall a, raises_only P (k a)) -> raises_only P (bind m k).
Proof.
  intros Hm Hk s x s' H; unfold bind in H.
  destruct (m s) as [[a|y] s1] eqn:E.
  - exact (Hk a s1 x s' H).
  - inversion H; subst; exact (Hm s x s' E).
Qed.

Lemma ro_weaken {A} (P Q : Prop) (m : M A) :
  (P -> Q) -> raises_only P m -> raises_only Q m.
Proof. intros HPQ Hm s x s' H; destruct (Hm s x s' H); auto. Qed.

Lemma ro_get_clients P : raises_only P get_clients.
Proof. intros s x s' H; discriminate H. Qed.

Lemma ro_modify P f : raises_only P (modify_clients f).
Proof. intros s x s' H; discriminate H. Qed.

Lemma ro_emit P a : raises_only P (emit a).
Proof. intros s x s' H; discriminate H. Qed.

Lemma ro_await ops c : raises_only (c = true) (await_point ops c).
Proof.
  unfold await_point; apply ro_bind; [apply ro_modify|intros _].
  destruct c; [|apply ro_ret].
  intros s x s' H; inversion H; auto.
Qed.

Lemma ro_close_swallow co ws :
  raises_only (exists w, co w = Some CancelledError) (close_swallow co ws).
Proof.
  unfold close_swallow; apply ro_bind; [apply ro_emit|intros _].
  destruct (co ws) as [y|] eqn:E; [|apply ro_ret].
  destruct y; simpl; try apply ro_ret.
  intros s x s' H; inversion H; subst; eauto.
Qed.

Lemma ro_issue_sends P snap msg : raises_only P (issue_sends snap msg).
Proof.
  induction snap as [|ws rest IH]; simpl; [apply ro_ret|].
  apply ro_bind; [apply ro_emit|intros _; exact IH].
Qed.

Lemma ro_prune co ps :
  raises_only (exists w, co w = Some CancelledError) (prune co ps).
Proof.
  induction ps as [|[ws r] rest IH]; simpl; [apply ro_ret|].
  apply ro_bind; [|intros _; exact IH].
  destruct (is_failure r); [|apply ro_ret].
  apply ro_bind; [apply ro_close_swallow|intros _; apply ro_modify].
Qed.

(** A Python-level result whose failure, if any, is an [Exception]. *)
Definition fails_with_exception {A} (r : res A) : Prop :=
  forall x, r = Err x -> is_exception x = true.

Lemma fwe_from_call {A} (c : call A) : fails_with_exception (from_call c).
Proof. destruct c; intros x H; inversion H; reflexivity. Qed.

Lemma fwe_attr {A} (o : option A) n : fails_with_exception (attr o n).
Proof. destruct o; intros x H; inversion H; reflexivity. Qed.

Lemma fwe_true_div a b : fails_with_exception (true_div a b).
Proof.
  unfold true_div; destruct (Qeq_bool b 0); intros x H; inversion H; reflexivity.
Qed.

Lemma fwe_ok {A} (a : A) : fails_with_exception (Ok a).
Proof. intros x H; discriminate H. Qed.

Lemma fwe_bind {A B} (m : res A) (k : A -> res B) :
  fails_with_exception m -> (forall a, fails_with_exception (k a)) ->
  fails_with_exception (res_bind m k).
Proof.
  intros Hm Hk x; destruct m as [a|y]; simpl; [apply Hk|].
  intro H; inversion H; subst; apply Hm; reflexivity.
Qed.

(** Every failure inside the [try] of [get_metrics] is an [Exception]. *)
Lemma get_metrics_try_err I last env x :
  get_metrics_try I last env = Err x -> is_exception x = true.
Proof.
  revert x; change (fails_with_exception (get_metrics_try I last env)).
  unfold get_metrics_try.
  repeat (cbv zeta; apply fwe_bind; [first [apply fwe_from_call | apply fwe_attr
                                          | apply fwe_true_div] | intro]).
  apply fwe_ok.
Qed.

Lemma get_metrics_ok I last env :
  exists m, fst (get_metrics I last env) = Ok m.
Proof.
  unfold get_metrics.
  destruct (get_metrics_try I last env) as [[m cur]|x] eqn:E; [simpl; eauto|].
  rewrite (get_metrics_try_err _ _ _ _ E); simpl; eauto.
Qed.

(** A record built by the [try] block has no [error] key. *)
Lemma get_metrics_try_no_error I last env m cur :
  get_metrics_try I last env = Ok (m, cur) -> error m = None.
Proof.
  unfold get_metrics_try, res_bind.
  repeat match goal with
         | |- context [match ?t with Ok _ => _ | Err _ => _ end] => destruct t
         end; intro H; inversion H; reflexivity.
Qed.

Lemma ro_sample P I env : raises_only P (sample I env).
Proof.
  intros s x s' H; unfold sample in H.
  destruct (get_metrics_ok I (last_io_stats s) env) as [m Hm].
  destruct (get_metrics I (last_io_stats s) env) as [r io].
  simpl in Hm; subst r; discriminate H.
Qed.

Lemma ro_tick I e : raises_only (tick_cancelled e) (tick I e).
Proof.
  unfold tick, tick_cancelled.
  apply ro_bind; [eapply ro_weaken; [|apply ro_await]; tauto|intros _].
  apply ro_bind; [apply ro_get_clients|intros cs].
  destruct cs as [|c cs]; [apply ro_ret|].
  apply ro_bind; [apply ro_sample|intros m].
  apply ro_bind; [apply ro_get_clients|intros snap].
  apply ro_bind; [apply ro_issue_sends|intros _].
  apply ro_bind; [eapply ro_weaken; [|apply ro_await]; tauto|intros _].
  apply ro_bind; [apply ro_get_clients|intros live].
  eapply ro_weaken; [|apply ro_prune]; tauto.
Qed.

(** *** The action log only grows *)

Definition log_grows {A} (m : M A) : Prop :=
  forall s, exists rest, log (snd (m s)) = log s ++ rest.

Lemma lg_ret {A} (a : A) : log_grows (ret a).
Proof. intros s; exists []; simpl; rewrite app_nil_r; reflexivity. Qed.

Lemma lg_raise {A} x : log_grows (@raise A x).
Proof. intros s; exists []; simpl; rewrite app_nil_r; reflexivity. Qed.

Lemma lg_bind {A B} (m : M A) (k : A -> M B) :
  log_grows m -> (forall a, log_grows (k a)) -> log_grows (bind m k).
Proof.
  intros Hm Hk s; unfold bind.
  destruct (Hm s) as [r1 H1].
  destruct (m s) as [[a|x] s1]; simpl in H1.
  - destruct (Hk a s1) as [r2 H2]; exists (r1 ++ r2).
    rewrite H2, H1, app_assoc; reflexivity.
  - exists r1; exact H1.
Qed.

Lemma lg_modify f : log_grows (modify_clients f).
Proof. intros s; exists []; simpl; rewrite app_nil_r; reflexivity. Qed.

Lemma lg_emit a : log_grows (emit a).
Proof. intros s; exists [a]; reflexivity. Qed.

Lemma lg_await ops c : log_grows (await_point ops c).
Proof.
  unfold await_point; apply lg_bind; [apply lg_modify|intros _].
  destruct c; [apply lg_raise|apply lg_ret].
Qed.

Lemma lg_close_swallow co ws : log_grows (close_swallow co ws).
Proof.
  unfold close_swallow; apply lg_bind; [apply lg_emit|intros _].
  destruct (co ws) as [x|]; [destruct (is_exception x)|];
    first [apply lg_ret | apply lg_raise].
Qed.

Lemma lg_prune co ps : log_grows (prune co ps).
Proof.
  induction ps as [|[ws r] rest IH]; simpl; [apply lg_ret|].
  apply lg_bind; [|intros _; exact IH].
  destruct (is_failure r); [|apply lg_ret].
  apply lg_bind; [apply lg_close_swallow|intros _; apply lg_modify].
Qed.

Lemma issue_sends_run snap msg s :
  issue_sends snap msg s =
  (Ok tt, mkState (clients s) (last_io_stats s) (sample_calls s)
            (log s ++ map (fun ws => ASend ws msg) snap)).
Proof.
  revert s; induction snap as [|ws rest IH]; intros s; simpl.
  - destruct s; simpl; rewrite app_nil_r; reflexivity.
  - unfold bind, emit; rewrite IH; simpl; rewrite <- app_assoc; reflexivity.
Qed.

Lemma bind_ok {A B} (m : M A) (k : A -> M B) s a s1 :
  m s = (Ok a, s1) -> bind m k s = k a s1.
Proof. intros H; unfold bind; rewrite H; reflexivity. Qed.

Lemma lg_get_clients : log_grows get_clients.
Proof. intros s; exists []; simpl; rewrite app_nil_r; reflexivity. Qed.

(** A tick whose sleep completes with subscribers attempts one delivery of
    the record [get_metrics] returned to every member of the snapshot,
    before anything else is logged. *)
Lemma tick_sends_snapshot I e s c cs :
  cancel_in_sleep e = false ->
  apply_ops (sleep_ops e) (clients s) = c :: cs ->
  exists m rest,
    fst (get_metrics I (last_io_stats s) (sampling e)) = Ok m /\
    log (snd (tick I e s)) =
      log s ++ map (fun ws => ASend ws (json_dumps m)) (c :: cs) ++ rest.
Proof.
  intros Hc Hr.
  destruct (get_metrics_ok I (last_io_stats s) (sampling e)) as [m Hm].
  destruct (get_metrics I (last_io_stats s) (sampling e)) as [r io] eqn:G.
  simpl in Hm; subst r.
  exists m.
  enough (exists rest, log (snd (tick I e s)) =
            log s ++ map (fun ws => ASend ws (json_dumps m)) (c :: cs) ++ rest)
    as [rest Hrest] by (exists rest; split; [reflexivity|exact Hrest]).
  unfold tick.
  rewrite (bind_ok _ _ s tt (mkState (c :: cs) (last_io_stats s) (sample_calls s) (log s)))
    by (unfold await_point, bind, modify_clients; rewrite Hc, Hr; reflexivity).
  rewrite (bind_ok _ _ _ (c :: cs) (mkState (c :: cs) (last_io_stats s) (sample_calls s) (log s)))
    by reflexivity.
  cbv beta iota.
  rewrite (bind_ok _ _ _ m (mkState (c :: cs) io (S (sample_calls s)) (log s)))
    by (unfold sample; simpl; rewrite G; reflexivity).
  rewrite (bind_ok _ _ _ (c :: cs) (mkState (c :: cs) io (S (sample_calls s)) (log s)))
    by reflexivity.
  rewrite (bind_ok _ _ _ tt _) by apply issue_sends_run.
  match goal with
  | |- exists rest, log (snd (?m ?s1)) = _ =>
      assert (Hg : log_grows m)
  end.
  { apply lg_bind; [apply lg_await|intros _].
    apply lg_bind; [apply lg_get_clients|intros live]; apply lg_prune. }
  match goal with
  | |- exists rest, log (snd (?m ?s1)) = _ => destruct (Hg s1) as [rest Hrest]
  end.
  exists rest.
  rewrite Hrest; simpl; rewrite <- app_assoc; reflexivity.
Qed.

(** *** The broadcast loop *)

Lemma loop_only_returns I envs s x :
  fst (broadcast_metrics_loop I envs s) <> Raised x.
Proof.
  revert s; induction envs as [|e rest IH]; intros s; simpl; [discriminate|].
  destruct (tick I e s) as [[u|y] s'] eqn:E; [apply IH|].
  destruct (ro_tick I e s y s' E) as [-> _]; simpl; discriminate.
Qed.

Lemma loop_returned_cancelled I envs s :
  fst (broadcast_metrics_loop I envs s) = Returned ->
  exists e, In e envs /\ tick_cancelled e.
Proof.
  revert s; induction envs as [|e rest IH]; intros s; simpl; [discriminate|].
  destruct (tick I e s) as [[u|y] s'] eqn:E.
  - intros H; destruct (IH s' H) as [e' [Hin Hc]]; eauto.
  - intros _; destruct (ro_tick I e s y s' E) as [_ Hc]; eauto.
Qed.

Lemma loop_running I envs s :
  Forall (fun e => ~ tick_cancelled e) envs ->
  fst (broadcast_metrics_loop I envs s) = Running.
Proof.
  intros HF.
  destruct (fst (broadcast_metrics_loop I envs s)) eqn:E; [| |reflexivity].
  - destruct (loop_returned_cancelled I envs s E) as [e [Hin Hc]].
    rewrite Forall_forall in HF; destruct (HF e Hin Hc).
  - destruct (loop_only_returns I envs s x E).
Qed.

Lemma loop_cancel_in_sleep I e rest s :
  cancel_in_sleep e = true ->
  fst (broadcast_metrics_loop I (e :: rest) s) = Returned.
Proof.
  intros Hc; simpl; unfold tick, bind at 1, await_point, bind at 1, modify_clients.
  rewrite Hc; reflexivity.
Qed.

(** *** Registry, handler and shutdown runs *)

Lemma existsb_In ws r : existsb (Nat.eqb ws) r = true <-> In ws r.
Proof.
  rewrite existsb_exists; split.
  - intros [x [Hin Heq]]; apply Nat.eqb_eq in Heq; subst; exact Hin.
  - intros Hin; exists ws; split; [exact Hin|apply Nat.eqb_refl].
Qed.

Lemma set_discard_removes ws r : ~ In ws (set_discard ws r).
Proof.
  unfold set_discard; rewrite filter_In; intros [_ H].
  rewrite Nat.eqb_refl in H; discriminate H.
Qed.

Lemma set_discard_absent ws r : ~ In ws r -> set_discard ws r = r.
Proof.
  induction r as [|x r IH]; intros Hn; simpl; [reflexivity|].
  destruct (Nat.eqb x ws) eqn:E; simpl.
  - apply Nat.eqb_eq in E; subst; destruct Hn; left; reflexivity.
  - rewrite IH; [reflexivity|intro H; apply Hn; right; exact H].
Qed.

Lemma receive_loop_run frames last x s :
  receive_loop frames last x s =
  (Err x, mkState (apply_ops last (fold_left (fun r ops => apply_ops ops r) frames (clients s)))
            (last_io_stats s) (sample_calls s) (log s)).
Proof.
  revert s; induction frames as [|ops rest IH]; intros s; simpl.
  - reflexivity.
  - unfold bind at 1, modify_clients at 1; rewrite IH; reflexivity.
Qed.

Lemma endpoint_finally_run ws s :
  endpoint_finally ws s =
  (Ok tt, mkState (set_discard ws (clients s)) (last_io_stats s) (sample_calls s) (log s)).
Proof.
  unfold endpoint_finally, bind, get_clients.
  destruct (existsb (Nat.eqb ws) (clients s)) eqn:E; [reflexivity|].
  assert (Hn : ~ In ws (clients s)) by (rewrite <- existsb_In, E; discriminate).
  rewrite (set_discard_absent _ _ Hn); destruct s; reflexivity.
Qed.

Lemma close_all_run co cs s :
  (forall ws x, co ws = Some x -> is_exception x = true) ->
  close_all co cs s =
  (Ok tt, mkState (clients s) (last_io_stats s) (sample_calls s) (log s ++ map AClose cs)).
Proof.
  intros Hco; revert s; induction cs as [|ws rest IH]; intros s; simpl.
  - destruct s; simpl; rewrite app_nil_r; reflexivity.
  - assert (Hc : close_swallow co ws s =
                 (Ok tt, mkState (clients s) (last_io_stats s) (sample_calls s)
                           (log s ++ [AClose ws]))).
    { unfold close_swallow, bind, emit; simpl.
      destruct (co ws) as [x|] eqn:E; [|reflexivity].
      rewrite (Hco ws x E); reflexivity. }
    rewrite (bind_ok _ _ _ _ _ Hc), IH; simpl; rewrite <- app_assoc; reflexivity.
Qed.

Lemma cancel_and_await_run t s :
  try_except_exception (cancel_and_await t) s = (Ok tt, s).
Proof. destruct t; reflexivity. Qed.

(** ** Claims *)

(** C3: in a tick whose sleep completes with subscribers, a delivery is
    attempted to every snapshot member whatever the outcome of each send;
    the loop never ends by raising, it ends only when a cancellation
    reaches it (and runs every tick when none does), and a cancellation is
    caught by its handler, the loop returning normally. *)
Theorem broadcast_loop_failure_policy (I : Q) :
  (forall e s c cs,
      cancel_in_sleep e = false ->
      apply_ops (sleep_ops e) (clients s) = c :: cs ->
      exists m rest,
        log (snd (tick I e s)) =
          log s ++ map (fun ws => ASend ws (json_dumps m)) (c :: cs) ++ rest) /\
  (forall envs s x, fst (broadcast_metrics_loop I envs s) <> Raised x) /\
  (forall envs s, fst (broadcast_metrics_loop I envs s) = Returned ->
                  exists e, In e envs /\ tick_cancelled e) /\
  (forall envs s, Forall (fun e => ~ tick_cancelled e) envs ->
                  fst (broadcast_metrics_loop I envs s) = Running) /\
  loop_handler CancelledError = Returned /\
  (forall e rest s, cancel_in_sleep e = true ->
                    fst (broadcast_metrics_loop I (e :: rest) s) = Returned).
Proof.
  split; [|split; [|split; [|split; [|split]]]].
  - intros e s c cs Hc Hr.
    destruct (tick_sends_snapshot I e s c cs Hc Hr) as [m [rest [_ H]]]; eauto.
  - apply loop_only_returns.
  - apply loop_returned_cancelled.
  - apply loop_running.
  - reflexivity.
  - apply loop_cancel_in_sleep.
Qed.

(** C6: [get_metrics] never raises; when its [try] block fails it returns
    a record whose five numeric fields are zero, carrying [str(e)] as
    [error] and a timestamp; when it succeeds the record has no [error];
    and a tick sends whatever record it returned to every snapshot member. *)
Theorem get_metrics_never_raises (I : Q) :
  (forall last env, exists m, fst (get_metrics I last env) = Ok m) /\
  (forall last env x, get_metrics_try I last env = Err x ->
     exists m, fst (get_metrics I last env) = Ok m /\
       cpu m = 0 /\ memory m = 0 /\ disk m = 0 /\
       disk_read m = 0 /\ disk_write m = 0 /\
       error m = Some (py_str x) /\ timestamp m = now_iso env) /\
  (forall last env m cur, get_metrics_try I last env = Ok (m, cur) ->
     fst (get_metrics I last env) = Ok m /\ error m = None) /\
  (forall e s c cs,
      cancel_in_sleep e = false ->
      apply_ops (sleep_ops e) (clients s) = c :: cs ->
      exists m rest,
        fst (get_metrics I (last_io_stats s) (sampling e)) = Ok m /\
        log (snd (tick I e s)) =
          log s ++ map (fun ws => ASend ws (json_dumps m)) (c :: cs) ++ rest).
Proof.
  split; [|split; [|split]].
  - apply get_metrics_ok.
  - intros last env x H.
    exists (error_record x env); unfold get_metrics; rewrite H.
    rewrite (get_metrics_try_err _ _ _ _ H); simpl; repeat split.
  - intros last env m cur H; unfold get_metrics; rewrite H; split; [reflexivity|].
    exact (get_metrics_try_no_error _ _ _ _ _ H).
  - apply tick_sends_snapshot.
Qed.

(** C7: when the registry is empty once the interval sleep completes, the
    tick returns without sampling: [last_io_stats] and the sampling-call
    count are unchanged and nothing is sent. *)
Theorem tick_empty_registry_skips_sampling I e s :
  cancel_in_sleep e = false ->
  apply_ops (sleep_ops e) (clients s) = [] ->
  tick I e s = (Ok tt, mkState [] (last_io_stats s) (sample_calls s) (log s)).
Proof.
  intros Hc Hr; unfold tick.
  rewrite (bind_ok _ _ s tt (mkState [] (last_io_stats s) (sample_calls s) (log s)))
    by (unfold await_point, bind, modify_clients; rewrite Hc, Hr; reflexivity).
  reflexivity.
Qed.

Lemma tick_empty_registry_skips_sampling_witness :
  cancel_in_sleep (ex_quiet_env ex_sampling) = false /\
  apply_ops (sleep_ops (ex_quiet_env ex_sampling)) (clients (mkState [] None 3 [])) = [] /\
  tick 2 (ex_quiet_env ex_sampling) (mkState [] None 3 []) =
    (Ok tt, mkState [] None 3 []).
Proof.
  split; [reflexivity|split; [reflexivity|]].
  apply (tick_empty_registry_skips_sampling 2 (ex_quiet_env ex_sampling)
           (mkState [] None 3 [])); reflexivity.
Defined.

(** C8: on a successful sample, [disk_read] and [disk_write] are the
    differences of the current and stored cumulative byte counters divided
    by the configured [UPDATE_INTERVAL], rounded to 2 decimals, and the
    stored counters become the current ones. *)
Theorem get_metrics_io_rate I last env m io' :
  get_metrics I last env = (Ok m, io') ->
  error m = None ->
  exists cur prev,
    disk_io_counters env = Returns (Some cur) /\
    last = Some prev /\
    disk_read m = py_round2 (inject_Z (read_bytes cur - read_bytes prev) / I) /\
    disk_write m = py_round2 (inject_Z (write_bytes cur - write_bytes prev) / I) /\
    io' = Some cur.
Proof.
  unfold get_metrics.
  destruct (get_metrics_try I last env) as [[m0 cur]|x] eqn:G.
  - intros H _; inversion H; subst m0 io'; clear H.
    revert G; unfold get_metrics_try, res_bind, from_call, attr, true_div.
    destruct (cpu_percent env); [|discriminate].
    destruct (virtual_memory_percent env); [|discriminate].
    destruct (disk_usage_percent env); [|discriminate].
    destruct (disk_io_counters env) as [[c|]|]; try discriminate.
    destruct last as [prev|]; [|discriminate].
    destruct (Qeq_bool I 0); [discriminate|].
    intro G; inversion G; subst.
    do 2 eexists; repeat split.
  - destruct (is_exception x); intro H; inversion H; subst; simpl; discriminate.
Qed.

Lemma get_metrics_io_rate_witness :
  get_metrics 2 (Some ex_io_prev) ex_sampling = (Ok ex_metrics, Some ex_io_cur) /\
  error ex_metrics = None /\
  (disk_read ex_metrics == 500)%Q /\ (disk_write ex_metrics == 500)%Q /\
  exists cur prev,
    disk_io_counters ex_sampling = Returns (Some cur) /\
    Some ex_io_prev = Some prev /\
    disk_read ex_metrics = py_round2 (inject_Z (read_bytes cur - read_bytes prev) / 2) /\
    disk_write ex_metrics = py_round2 (inject_Z (write_bytes cur - write_bytes prev) / 2) /\
    Some ex_io_cur = Some cur.
Proof.
  split; [reflexivity|split; [reflexivity|split; [reflexivity|split; [reflexivity|]]]].
  apply (get_metrics_io_rate 2 (Some ex_io_prev) ex_sampling ex_metrics (Some ex_io_cur));
    reflexivity.
Defined.

(** C9: when [get_metrics] returns a record carrying [error], the stored
    counters [last_io_stats] are left as they were; only a successful
    [try] block replaces them, with the counters it read. *)
Theorem get_metrics_error_keeps_io I last env m io' :
  get_metrics I last env = (Ok m, io') ->
  error m <> None ->
  io' = last.
Proof.
  unfold get_metrics.
  destruct (get_metrics_try I last env) as [[m0 cur]|x] eqn:G.
  - intros H Herr; inversion H; subst m0.
    destruct (Herr (get_metrics_try_no_error _ _ _ _ _ G)).
  - destruct (is_exception x); intro H; inversion H; reflexivity.
Qed.

Lemma get_metrics_error_keeps_io_witness :
  get_metrics 2 (Some ex_io_prev) ex_sampling_nodisk =
    (Ok (error_record (PyError "AttributeError"
           "'NoneType' object has no attribute 'read_bytes'") ex_sampling_nodisk),
     Some ex_io_prev) /\
  Some ex_io_prev = Some ex_io_prev.
Proof.
  split; [reflexivity|].
  apply (get_metrics_error_keeps_io 2 (Some ex_io_prev) ex_sampling_nodisk
           (error_record (PyError "AttributeError"
              "'NoneType' object has no attribute 'read_bytes'") ex_sampling_nodisk));
    [reflexivity|discriminate].
Defined.

(** C1 (code_bug): the prune zips the results with a second [list(clients)]
    taken after [gather] returns, not with the snapshot the sends used. At
    [ex_race_env] the snapshot is [1; 2], the sends of 1 and 2 give
    [None] and a failure, subscriber 1 is discarded during the fan-out, and
    the prune sees the single pair (2, None): 2 is paired with 1's result. *)
Lemma broadcast_prune_pairs_live_registry :
  log (snd (tick 2 ex_race_env ex_state)) = [ASend 1 ex_metrics; ASend 2 ex_metrics] /\
  map (send_out ex_race_env) [1%nat; 2%nat] = [None; Some ex_send_fail] /\
  zip_pairs (apply_ops (gather_ops ex_race_env) [1%nat; 2%nat])
    (map (send_out ex_race_env) [1%nat; 2%nat]) = [(2%nat, None)] /\
  combine [1%nat; 2%nat] (map (send_out ex_race_env) [1%nat; 2%nat]) =
    [(1%nat, None); (2%nat, Some ex_send_fail)].
Proof. repeat split; reflexivity. Qed.

(** C2 (code_bug): at the same input, subscriber 2's delivery fails, yet
    the tick ends with 2 still registered and never closed, and the next
    tick attempts delivery to 2 again. *)
Lemma broadcast_failed_send_survives_tick :
  send_out ex_race_env 2 = Some ex_send_fail /\
  tick 2 ex_race_env ex_state =
    (Ok tt, mkState [2%nat] (Some ex_io_cur) 1 [ASend 1 ex_metrics; ASend 2 ex_metrics]) /\
  exists m,
    log (snd (tick 2 (ex_quiet_env ex_sampling)
                (mkState [2%nat] (Some ex_io_cur) 1 []))) = [ASend 2 m].
Proof.
  split; [reflexivity|split; [reflexivity|]].
  eexists; reflexivity.
Qed.

(** C4, counterexample: a handler whose receive fails with a transport
    error returns, leaves the registry without its websocket, and never
    calls [close] on it. *)
Lemma websocket_endpoint_transport_error_no_close :
  websocket_endpoint 7 ex_transport_error (mkState [1%nat] None 0 []) =
    (Ok tt, mkState [1%nat] None 0 []) /\
  ~ In (AClose 7) (log (snd (websocket_endpoint 7 ex_transport_error
                               (mkState [1%nat] None 0 [])))).
Proof. split; [reflexivity|simpl; tauto]. Qed.

(** C4, as the code does it: when the receive loop ends with an
    [Exception] (peer close, transport error, or the disconnect that follows
    a prune), the handler returns normally, its websocket is no longer in
    the registry and every other member is as the other tasks left it, and
    it performs no transport action (no [close]); the handler's guarded
    removal and the loop's [discard] of an absent websocket change nothing. *)
Theorem websocket_endpoint_exit ws h s :
  accept_out h = None ->
  is_exception (recv_end h) = true ->
  websocket_endpoint ws h s =
    (Ok tt, mkState
              (set_discard ws (apply_ops (closing_ops h)
                 (fold_left (fun r ops => apply_ops ops r) (inbound h)
                    (set_add ws (clients s)))))
              (last_io_stats s) (sample_calls s) (log s)) /\
  (forall s0, ~ In ws (clients s0) ->
     endpoint_finally ws s0 = (Ok tt, s0) /\
     modify_clients (set_discard ws) s0 = (Ok tt, s0)) /\
  (forall r, ~ In ws (set_discard ws r)).
Proof.
  intros Ha He; split; [|split].
  - unfold websocket_endpoint; rewrite Ha.
    rewrite (bind_ok _ _ s tt s) by reflexivity.
    unfold bind at 1, modify_clients at 1.
    unfold try_except_finally; rewrite receive_loop_run; simpl.
    unfold endpoint_handler.
    destruct (recv_end h); try discriminate; simpl; rewrite endpoint_finally_run; reflexivity.
  - intros s0 Hn; rewrite endpoint_finally_run; unfold modify_clients.
    rewrite (set_discard_absent _ _ Hn); destruct s0; split; reflexivity.
  - apply set_discard_removes.
Qed.

Lemma websocket_endpoint_exit_witness :
  accept_out ex_transport_error = None /\
  is_exception (recv_end ex_transport_error) = true /\
  websocket_endpoint 7 ex_transport_error (mkState [1%nat] None 0 []) =
    (Ok tt, mkState
              (set_discard 7 (apply_ops (closing_ops ex_transport_error)
                 (fold_left (fun r ops => apply_ops ops r) (inbound ex_transport_error)
                    (set_add 7 (clients (mkState [1%nat] None 0 []))))))
              None 0 []).
Proof.
  split; [reflexivity|split; [reflexivity|]].
  apply (websocket_endpoint_exit 7 ex_transport_error (mkState [1%nat] None 0 []));
    reflexivity.
Defined.

(** C5: with a broadcast task, the shutdown hook cancels it and awaits it
    (the await ends normally), then attempts [close] on every registered
    websocket in turn, whatever [Exception] each close raises, and ends
    normally with an empty registry. *)
Theorem on_shutdown_cancels_and_clears t co s :
  (forall ws x, co ws = Some x -> is_exception x = true) ->
  try_except_exception (cancel_and_await t) s = (Ok tt, s) /\
  cancel_and_await t s = (Ok tt, s) /\
  on_shutdown (Some t) co s =
    (Ok tt, mkState [] (last_io_stats s) (sample_calls s) (log s ++ map AClose (clients s))).
Proof.
  intros Hco; split; [apply cancel_and_await_run|split; [destruct t; reflexivity|]].
  unfold on_shutdown.
  rewrite (bind_ok _ _ s tt s) by apply cancel_and_await_run.
  rewrite (bind_ok _ _ s (clients s) s) by reflexivity.
  unfold bind at 1; rewrite (close_all_run _ _ _ Hco); reflexivity.
Qed.

Lemma on_shutdown_cancels_and_clears_witness :
  (forall ws x, ex_close_fail ws = Some x -> is_exception x = true) /\
  on_shutdown (Some Suspended) ex_close_fail ex_state =
    (Ok tt, mkState [] (Some ex_io_prev) 0 [AClose 1; AClose 2]).
Proof.
  split; [intros ws x H; inversion H; reflexivity|].
  apply (on_shutdown_cancels_and_clears Suspended ex_close_fail ex_state).
  intros ws x H; inversion H; reflexivity.
Defined.

(** C10: with no broadcast task ([broadcast_task is None]) the shutdown
    hook skips the cancellation, attempts [close] on every registered
    websocket, ends normally and leaves the registry empty. *)
Theorem on_shutdown_without_task co s :
  (forall ws x, co ws = Some x -> is_exception x = true) ->
  on_shutdown None co s =
    (Ok tt, mkState [] (last_io_stats s) (sample_calls s) (log s ++ map AClose (clients s))).
Proof.
  intros Hco; unfold on_shutdown.
  rewrite (bind_ok _ _ s tt s) by reflexivity.
  rewrite (bind_ok _ _ s (clients s) s) by reflexivity.
  unfold bind at 1; rewrite (close_all_run _ _ _ Hco); reflexivity.
Qed.

Lemma on_shutdown_without_task_witness :
  (forall ws x, ex_close_fail ws = Some x -> is_exception x = true) /\
  on_shutdown None ex_close_fail ex_state =
    (Ok tt, mkState [] (Some ex_io_prev) 0 [AClose 1; AClose 2]).
Proof.
  split; [intros ws x H; inversion H; reflexivity|].
  apply (on_shutdown_without_task ex_close_fail ex_state).
  intros ws x H; inversion H; reflexivity.
Defined.

(** ** Further properties of the code *)

(** *** The registry stays duplicate-free *)

Lemma set_add_In ws r x : In x (set_add ws r) <-> x = ws \/ In x r.
Proof.
  unfold set_add; destruct (existsb (Nat.eqb ws) r) eqn:E.
  - apply existsb_In in E; split; [tauto|intros [->|H]; assumption].
  - rewrite in_app_iff; simpl; split; intros H; intuition.
Qed.

Lemma set_discard_In ws r x : In x (set_discard ws r) <-> In x r /\ x <> ws.
Proof.
  unfold set_discard; rewrite filter_In, negb_true_iff, Nat.eqb_neq; tauto.
Qed.

Lemma set_add_NoDup ws r : NoDup r -> NoDup (set_add ws r).
Proof.
  intros H; unfold set_add; destruct (existsb (Nat.eqb ws) r) eqn:E; [exact H|].
  apply NoDup_app; [exact H|constructor; [simpl; tauto|constructor]|].
  intros x Hx [<-|[]]; apply (proj2 (existsb_In ws r)) in Hx; congruence.
Qed.

Lemma set_discard_NoDup ws r : NoDup r -> NoDup (set_discard ws r).
Proof. intros H; apply NoDup_filter, H. Qed.

Lemma apply_ops_NoDup ops r : NoDup r -> NoDup (apply_ops ops r).
Proof.
  unfold apply_ops; revert r; induction ops as [|[w|w] ops IH]; intros r H; simpl;
    [exact H|apply IH, set_add_NoDup, H|apply IH, set_discard_NoDup, H].
Qed.

Definition keeps_nodup {A} (m : M A) : Prop :=
  forall s, NoDup (clients s) -> NoDup (clients (snd (m s))).

Lemma kn_ret {A} (a : A) : keeps_nodup (ret a).
Proof. intros s H; exact H. Qed.

Lemma kn_raise {A} x : keeps_nodup (@raise A x).
Proof. intros s H; exact H. Qed.

Lemma kn_bind {A B} (m : M A) (k : A -> M B) :
  keeps_nodup m -> (forall a, keeps_nodup (k a)) -> keeps_nodup (bind m k).
Proof.
  intros Hm Hk s H; unfold bind; specialize (Hm s H).
  destruct (m s) as [[a|x] s1]; simpl in *; [apply Hk, Hm|exact Hm].
Qed.

Lemma kn_modify f : (forall r, NoDup r -> NoDup (f r)) -> keeps_nodup (modify_clients f).
Proof. intros Hf s H; apply Hf, H. Qed.

Lemma kn_emit a : keeps_nodup (emit a).
Proof. intros s H; exact H. Qed.

Lemma kn_get_clients : keeps_nodup get_clients.
Proof. intros s H; exact H. Qed.

Lemma kn_await ops c : keeps_nodup (await_point ops c).
Proof.
  unfold await_point; apply kn_bind; [apply kn_modify, apply_ops_NoDup|intros _].
  destruct c; [apply kn_raise|apply kn_ret].
Qed.

Lemma kn_close_swallow co ws : keeps_nodup (close_swallow co ws).
Proof.
  unfold close_swallow; apply kn_bind; [apply kn_emit|intros _].
  destruct (co ws) as [x|]; [destruct (is_exception x)|];
    first [apply kn_ret | apply kn_raise].
Qed.

Lemma kn_prune co ps : keeps_nodup (prune co ps).
Proof.
  induction ps as [|[ws r] rest IH]; simpl; [apply kn_ret|].
  apply kn_bind; [|intros _; exact IH].
  destruct (is_failure r); [|apply kn_ret].
  apply kn_bind; [apply kn_close_swallow|intros _; apply kn_modify, set_discard_NoDup].
Qed.

Lemma kn_issue_sends snap msg : keeps_nodup (issue_sends snap msg).
Proof.
  induction snap as [|ws rest IH]; simpl; [apply kn_ret|].
  apply kn_bind; [apply kn_emit|intros _; exact IH].
Qed.

Lemma kn_sample I env : keeps_nodup (sample I env).
Proof.
  intros s H; unfold sample.
  destruct (get_metrics I (last_io_stats s) env); exact H.
Qed.

Lemma kn_tick I e : keeps_nodup (tick I e).
Proof.
  unfold tick.
  apply kn_bind; [apply kn_await|intros _].
  apply kn_bind; [apply kn_get_clients|intros cs].
  destruct cs; [apply kn_ret|].
  apply kn_bind; [apply kn_sample|intros m].
  apply kn_bind; [apply kn_get_clients|intros snap].
  apply kn_bind; [apply kn_issue_sends|intros _].
  apply kn_bind; [apply kn_await|intros _].
  apply kn_bind; [apply kn_get_clients|intros live]; apply kn_prune.
Qed.

Lemma kn_try_except_finally body h fin :
  keeps_nodup body -> (forall x, keeps_nodup (h x)) -> keeps_nodup fin ->
  keeps_nodup (try_except_finally body h fin).
Proof.
  intros Hb Hh Hf s H; unfold try_except_finally.
  specialize (Hb s H); destruct (body s) as [[u|x] s1]; simpl in Hb; [apply Hf, Hb|].
  specialize (Hh x s1 Hb); destruct (h x s1) as [[u|y] s2]; simpl in Hh; [apply Hf, Hh|].
  specialize (Hf s2 Hh); destruct (fin s2) as [[u|z] s3]; exact Hf.
Qed.

Lemma kn_receive_loop frames last x : keeps_nodup (receive_loop frames last x).
Proof.
  induction frames as [|ops rest IH]; simpl.
  - apply kn_bind; [apply kn_modify, apply_ops_NoDup|intros _; apply kn_raise].
  - apply kn_bind; [apply kn_modify, apply_ops_NoDup|intros _; exact IH].
Qed.

Lemma kn_websocket_endpoint ws h : keeps_nodup (websocket_endpoint ws h).
Proof.
  unfold websocket_endpoint.
  apply kn_bind; [destruct (accept_out h); [apply kn_raise|apply kn_ret]|intros _].
  apply kn_bind; [apply kn_modify, set_add_NoDup|intros _].
  apply kn_try_except_finally; [apply kn_receive_loop| |].
  - intros x; unfold endpoint_handler; destruct x;
      try apply kn_ret; try apply kn_raise; destruct (is_exception _);
      first [apply kn_ret | apply kn_raise].
  - unfold endpoint_finally; apply kn_bind; [apply kn_get_clients|intros cs].
    destruct (existsb _ _); [apply kn_modify, set_discard_NoDup|apply kn_ret].
Qed.

(** *** A tick without interference *)

Definition prune_step (p : Conn * option exn) (r : list Conn) : list Conn :=
  if is_failure (snd p) then set_discard (fst p) r else r.

Lemma prune_run co ps s :
  (forall ws x, co ws = Some x -> is_exception x = true) ->
  prune co ps s =
  (Ok tt, mkState (fold_left (fun r p => prune_step p r) ps (clients s))
            (last_io_stats s) (sample_calls s)
            (log s ++ map (fun p => AClose (fst p)) (filter (fun p => is_failure (snd p)) ps))).
Proof.
  intros Hco; revert s; induction ps as [|[ws r] rest IH]; intros s; simpl.
  - destruct s; simpl; rewrite app_nil_r; reflexivity.
  - unfold prune_step at 2; simpl.
    destruct (is_failure r).
    + assert (Hc : (close_swallow co ws ;;; modify_clients (set_discard ws)) s =
                   (Ok tt, mkState (set_discard ws (clients s)) (last_io_stats s)
                             (sample_calls s) (log s ++ [AClose ws]))).
      { unfold close_swallow, bind, emit, modify_clients; simpl.
        destruct (co ws) as [x|] eqn:E; [|reflexivity].
        rewrite (Hco ws x E); reflexivity. }
      rewrite (bind_ok _ _ _ _ _ Hc), IH; simpl; rewrite <- app_assoc; reflexivity.
    + rewrite (bind_ok _ _ s tt s) by reflexivity; rewrite IH; reflexivity.
Qed.

Lemma filter_filter_and {A} (f g : A -> bool) l :
  filter f (filter g l) = filter (fun x => g x && f x) l.
Proof.
  induction l as [|a l IH]; simpl; [reflexivity|].
  destruct (g a); simpl; [destruct (f a); simpl|]; rewrite IH; reflexivity.
Qed.

Lemma prune_fold_snapshot (f : Conn -> option exn) l c :
  fold_left (fun r p => prune_step p r) (combine l (map f l)) c =
  filter (fun x => negb (existsb (fun y => Nat.eqb y x && is_failure (f y)) l)) c.
Proof.
  revert c; induction l as [|y l IH]; intros c; simpl.
  - induction c as [|a c IHc]; simpl; [reflexivity|rewrite <- IHc; reflexivity].
  - rewrite IH; unfold prune_step; simpl.
    destruct (is_failure (f y)).
    + unfold set_discard; rewrite filter_filter_and; apply filter_ext; intros x.
      rewrite Nat.eqb_sym, andb_true_r, negb_orb; reflexivity.
    + apply filter_ext; intros x; rewrite andb_false_r; reflexivity.
Qed.

Lemma prune_filter_snapshot (f : Conn -> option exn) l :
  filter (fun x => negb (existsb (fun y => Nat.eqb y x && is_failure (f y)) l)) l =
  filter (fun x => negb (is_failure (f x))) l.
Proof.
  apply filter_ext_in; intros x Hx; f_equal.
  destruct (is_failure (f x)) eqn:E.
  - apply existsb_exists; exists x; rewrite Nat.eqb_refl, E; auto.
  - apply not_true_iff_false; intros H; apply existsb_exists in H.
    destruct H as [y [_ H]]; apply andb_true_iff in H; destruct H as [H1 H2].
    apply Nat.eqb_eq in H1; subst; congruence.
Qed.

Lemma prune_closes_snapshot (f : Conn -> option exn) l :
  map (fun p => AClose (fst p)) (filter (fun p => is_failure (snd p)) (combine l (map f l))) =
  map AClose (filter (fun ws => is_failure (f ws)) l).
Proof.
  induction l as [|y l IH]; simpl; [reflexivity|].
  destruct (is_failure (f y)); simpl; rewrite IH; reflexivity.
Qed.




(** X3: when no other task touches the registry during a tick and no
    cancellation arrives, the tick sends one record to every registered
    websocket, then attempts [close] once on each one whose send raised an
    [Exception] (in registry order), and ends with exactly the websockets
    whose send did not fail. *)
Theorem tick_without_interference I e s :
  sleep_ops e = [] -> cancel_in_sleep e = false ->
  gather_ops e = [] -> cancel_in_gather e = false ->
  (forall ws x, close_out e ws = Some x -> is_exception x = true) ->
  exists m,
    fst (tick I e s) = Ok tt /\
    clients (snd (tick I e s)) =
      filter (fun ws => negb (is_failure (send_out e ws))) (clients s) /\
    log (snd (tick I e s)) =
      log s ++ map (fun ws => ASend ws m) (clients s) ++
      map AClose (filter (fun ws => is_failure (send_out e ws)) (clients s)).
Proof.
  intros Hso Hcs Hgo Hcg Hco.
  destruct (clients s) as [|c cs] eqn:Hr.
  - exists (error_record CancelledError (sampling e)); unfold tick.
    rewrite (bind_ok _ _ s tt (mkState [] (last_io_stats s) (sample_calls s) (log s)))
      by (unfold await_point, bind, modify_clients; rewrite Hso, Hcs, Hr; reflexivity).
    split; [reflexivity|split; [reflexivity|simpl; rewrite app_nil_r; reflexivity]].
  - destruct (get_metrics_ok I (last_io_stats s) (sampling e)) as [m Hm].
    destruct (get_metrics I (last_io_stats s) (sampling e)) as [r io] eqn:G.
    simpl in Hm; subst r; exists m; unfold tick.
    rewrite (bind_ok _ _ s tt (mkState (c :: cs) (last_io_stats s) (sample_calls s) (log s)))
      by (unfold await_point, bind, modify_clients; rewrite Hso, Hcs, Hr; reflexivity).
    rewrite (bind_ok _ _ _ (c :: cs) (mkState (c :: cs) (last_io_stats s) (sample_calls s) (log s)))
      by reflexivity.
    cbv beta iota.
    rewrite (bind_ok _ _ _ m (mkState (c :: cs) io (S (sample_calls s)) (log s)))
      by (unfold sample; simpl; rewrite G; reflexivity).
    rewrite (bind_ok _ _ _ (c :: cs) (mkState (c :: cs) io (S (sample_calls s)) (log s)))
      by reflexivity.
    rewrite (bind_ok _ _ _ tt _) by apply issue_sends_run.
    cbn [clients last_io_stats sample_calls log].
    rewrite (bind_ok _ _ _ tt (mkState (c :: cs) io (S (sample_calls s))
                                 (log s ++ map (fun ws => ASend ws (json_dumps m)) (c :: cs))))
      by (unfold await_point, bind, modify_clients; rewrite Hgo, Hcg; reflexivity).
    rewrite (bind_ok _ _ _ (c :: cs) _) by reflexivity.
    unfold zip_pairs; rewrite (prune_run _ _ _ Hco).
    cbn [fst snd clients log].
    rewrite prune_fold_snapshot, prune_filter_snapshot, prune_closes_snapshot.
    split; [reflexivity|split; [reflexivity|]].
    rewrite <- app_assoc; reflexivity.
Qed.

Lemma tick_without_interference_witness :
  exists m,
    fst (tick 2 ex_fail_env ex_state) = Ok tt /\
    clients (snd (tick 2 ex_fail_env ex_state)) = [1%nat] /\
    log (snd (tick 2 ex_fail_env ex_state)) = [ASend 1 m; ASend 2 m; AClose 2].
Proof.
  destruct (tick_without_interference 2 ex_fail_env ex_state)
    as [m [H1 [H2 H3]]]; try reflexivity.
  - intros ws x H; discriminate H.
  - exists m; split; [exact H1|split; [exact H2|exact H3]].
Defined.

(** *** Sampling edge cases *)

Lemma get_metrics_success I last env m io' :
  get_metrics I last env = (Ok m, io') ->
  error m = None ->
  exists cur prev,
    disk_io_counters env = Returns (Some cur) /\
    last = Some prev /\
    disk_read m = py_round2 (inject_Z (read_bytes cur - read_bytes prev) / I) /\
    disk_write m = py_round2 (inject_Z (write_bytes cur - write_bytes prev) / I) /\
    io' = Some cur.
Proof.
  unfold get_metrics.
  destruct (get_metrics_try I last env) as [[m0 cur]|x] eqn:G.
  - intros H _; inversion H; subst m0 io'; clear H.
    revert G; unfold get_metrics_try, res_bind, from_call, attr, true_div.
    destruct (cpu_percent env); [|discriminate].
    destruct (virtual_memory_percent env); [|discriminate].
    destruct (disk_usage_percent env); [|discriminate].
    destruct (disk_io_counters env) as [[c|]|]; try discriminate.
    destruct last as [prev|]; [|discriminate].
    destruct (Qeq_bool I 0); [discriminate|].
    intro G; inversion G; subst.
    do 2 eexists; repeat split.
  - destruct (is_exception x); intro H; inversion H; subst; simpl; discriminate.
Qed.

Lemma get_metrics_error_io I last env m io' :
  get_metrics I last env = (Ok m, io') -> error m <> None -> io' = last.
Proof.
  unfold get_metrics.
  destruct (get_metrics_try I last env) as [[m0 cur]|x] eqn:G.
  - intros H Herr; inversion H; subst m0.
    destruct (Herr (get_metrics_try_no_error _ _ _ _ _ G)).
  - destruct (is_exception x); intro H; inversion H; reflexivity.
Qed.

Lemma get_metrics_of_failure I last env x :
  get_metrics_try I last env = Err x ->
  get_metrics I last env = (Ok (error_record x env), last).
Proof.
  intros G; unfold get_metrics; rewrite G, (get_metrics_try_err _ _ _ _ G); reflexivity.
Qed.

(** X4: when no counters are stored ([psutil.disk_io_counters()] returned
    None at import), every call of [get_metrics] returns the error record
    and leaves [last_io_stats] at None, so no later sample ever succeeds. *)
Theorem get_metrics_without_baseline I env :
  exists x, get_metrics I None env = (Ok (error_record x env), None).
Proof.
  assert (Hx : exists x, get_metrics_try I None env = Err x).
  { unfold get_metrics_try, res_bind, from_call, attr.
    destruct (cpu_percent env); [|eauto].
    destruct (virtual_memory_percent env); [|eauto].
    destruct (disk_usage_percent env); [|eauto].
    destruct (disk_io_counters env) as [[c|]|]; eauto. }
  destruct Hx as [x Hx]; exists x; apply get_metrics_of_failure, Hx.
Qed.

(** X5: with [UPDATE_INTERVAL] equal to 0, [get_metrics] never succeeds:
    it returns the error record (a [ZeroDivisionError] once the psutil
    reads succeed) and leaves [last_io_stats] unchanged. *)
Theorem get_metrics_zero_interval I last env :
  I == 0 ->
  exists x, get_metrics I last env = (Ok (error_record x env), last).
Proof.
  intros HI.
  assert (Hx : exists x, get_metrics_try I last env = Err x).
  { unfold get_metrics_try, res_bind, from_call, attr, true_div.
    rewrite (proj2 (Qeq_bool_iff I 0) HI).
    destruct (cpu_percent env); [|eauto].
    destruct (virtual_memory_percent env); [|eauto].
    destruct (disk_usage_percent env); [|eauto].
    destruct (disk_io_counters env) as [[c|]|]; [|eauto|eauto].
    destruct last; eauto. }
  destruct Hx as [x Hx]; exists x; apply get_metrics_of_failure, Hx.
Qed.

Lemma get_metrics_zero_interval_witness :
  0 == 0 /\
  get_metrics 0 (Some ex_io_prev) ex_sampling =
    (Ok (error_record (PyError "ZeroDivisionError" "float division by zero") ex_sampling),
     Some ex_io_prev) /\
  exists x, get_metrics 0 (Some ex_io_prev) ex_sampling =
              (Ok (error_record x ex_sampling), Some ex_io_prev).
Proof.
  split; [reflexivity|split; [reflexivity|]].
  apply (get_metrics_zero_interval 0 (Some ex_io_prev) ex_sampling); reflexivity.
Defined.

Lemma floor_below_neg1 (f : Z) : inject_Z f < -1 -> (f <= -2)%Z.
Proof.
  intros H; change (-1) with (inject_Z (-1)) in H; rewrite <- Zlt_Qlt in H; lia.
Qed.

Lemma round_half_even_neg x : x <= -1 -> (round_half_even x <= -1)%Z.
Proof.
  intros Hx; unfold round_half_even.
  pose proof (Qfloor_le x) as H1.
  set (f := Qfloor x) in *.
  assert (Hf1 : (f <= -1)%Z).
  { rewrite Zle_Qle; change (inject_Z (-1)) with (-1 # 1); lra. }
  destruct (Qcompare (x - inject_Z f) (1 # 2)) eqn:C.
  - apply Qeq_alt in C.
    assert (Hf2 : (f <= -2)%Z) by (apply floor_below_neg1; lra).
    destruct (Z.even f); lia.
  - exact Hf1.
  - apply Qgt_alt in C.
    assert (Hf2 : (f <= -2)%Z) by (apply floor_below_neg1; lra).
    lia.
Qed.

Lemma py_round2_neg x : x <= -(1 # 100) -> py_round2 x < 0.
Proof.
  intros Hx; unfold py_round2.
  assert (Hr : (round_half_even (x * 100) <= -1)%Z)
    by (apply round_half_even_neg; lra).
  unfold Qlt; simpl; lia.
Qed.

(** X6: the disk rates are not clamped at zero: when the cumulative read
    counter has gone down since the stored reading (a counter reset, a
    disk removed) by at least 0.01 bytes per second of [UPDATE_INTERVAL],
    a successful sample reports a negative [disk_read]. *)
Theorem get_metrics_rate_not_clamped I prev env m io' cur :
  get_metrics I (Some prev) env = (Ok m, io') ->
  error m = None ->
  disk_io_counters env = Returns (Some cur) ->
  inject_Z (read_bytes cur - read_bytes prev) / I <= -(1 # 100) ->
  disk_read m < 0.
Proof.
  intros G He Hc Hle.
  destruct (get_metrics_success I (Some prev) env m io' G He)
    as [cur' [prev' [Hc' [Hp [Hr _]]]]].
  rewrite Hc in Hc'; inversion Hc'; inversion Hp; subst.
  rewrite Hr; apply py_round2_neg, Hle.
Qed.

(** After a reset: 100 bytes read now against 1100 stored. *)
Lemma get_metrics_rate_not_clamped_witness :
  get_metrics 2 (Some ex_io_cur) ex_sampling_reset = (Ok ex_metrics_reset, Some ex_io_prev) /\
  (disk_read ex_metrics_reset == -500)%Q /\
  disk_read ex_metrics_reset < 0.
Proof.
  split; [reflexivity|split; [reflexivity|]].
  apply (get_metrics_rate_not_clamped 2 ex_io_cur ex_sampling_reset ex_metrics_reset
           (Some ex_io_prev) ex_io_prev); try reflexivity.
  apply Qle_bool_imp_le; reflexivity.
Defined.

(** X7: a failed sample keeps the old counters, so the next successful
    sample measures the bytes moved since the last successful one (over
    two or more intervals) and still divides them by one
    [UPDATE_INTERVAL]. *)
Theorem get_metrics_after_failed_sample I last env1 env2 m1 io1 m2 io2 :
  get_metrics I last env1 = (Ok m1, io1) -> error m1 <> None ->
  get_metrics I io1 env2 = (Ok m2, io2) -> error m2 = None ->
  exists cur prev,
    last = Some prev /\
    disk_io_counters env2 = Returns (Some cur) /\
    disk_read m2 = py_round2 (inject_Z (read_bytes cur - read_bytes prev) / I) /\
    disk_write m2 = py_round2 (inject_Z (write_bytes cur - write_bytes prev) / I) /\
    io2 = Some cur.
Proof.
  intros G1 E1 G2 E2.
  rewrite (get_metrics_error_io _ _ _ _ _ G1 E1) in G2.
  destruct (get_metrics_success _ _ _ _ _ G2 E2) as [cur [prev [H1 [H2 [H3 [H4 H5]]]]]].
  exists cur, prev; auto.
Qed.

Lemma get_metrics_after_failed_sample_witness :
  get_metrics 2 (Some ex_io_prev) ex_sampling_nodisk =
    (Ok (error_record (PyError "AttributeError"
           "'NoneType' object has no attribute 'read_bytes'") ex_sampling_nodisk),
     Some ex_io_prev) /\
  get_metrics 2 (Some ex_io_prev) ex_sampling = (Ok ex_metrics, Some ex_io_cur) /\
  exists cur prev,
    Some ex_io_prev = Some prev /\
    disk_io_counters ex_sampling = Returns (Some cur) /\
    disk_read ex_metrics = py_round2 (inject_Z (read_bytes cur - read_bytes prev) / 2) /\
    disk_write ex_metrics = py_round2 (inject_Z (write_bytes cur - write_bytes prev) / 2) /\
    Some ex_io_cur = Some cur.
Proof.
  split; [reflexivity|split; [reflexivity|]].
  apply (get_metrics_after_failed_sample 2 (Some ex_io_prev) ex_sampling_nodisk ex_sampling
           (error_record (PyError "AttributeError"
              "'NoneType' object has no attribute 'read_bytes'") ex_sampling_nodisk)
           (Some ex_io_prev) ex_metrics (Some ex_io_cur));
    try reflexivity; discriminate.
Defined.

(** *** Handler, shutdown and startup edge cases *)

(** X8: if [websocket.accept()] raises, the handler propagates the
    exception and never registers its websocket; if the handler is
    cancelled while it waits in [receive_text()], the [finally] still
    removes its websocket and the [CancelledError] is re-raised. *)
Theorem websocket_endpoint_error_paths ws h s :
  (forall x, accept_out h = Some x -> websocket_endpoint ws h s = (Err x, s)) /\
  (accept_out h = None -> recv_end h = CancelledError ->
   websocket_endpoint ws h s =
     (Err CancelledError,
      mkState (set_discard ws (apply_ops (closing_ops h)
                 (fold_left (fun r ops => apply_ops ops r) (inbound h)
                    (set_add ws (clients s)))))
              (last_io_stats s) (sample_calls s) (log s))).
Proof.
  split.
  - intros x Ha; unfold websocket_endpoint, bind; rewrite Ha; reflexivity.
  - intros Ha Hc; unfold websocket_endpoint; rewrite Ha.
    rewrite (bind_ok _ _ s tt s) by reflexivity.
    unfold bind at 1, modify_clients at 1.
    unfold try_except_finally; rewrite receive_loop_run, Hc; simpl.
    rewrite endpoint_finally_run; reflexivity.
Qed.

(** X9: if the shutdown hook is itself cancelled while closing the first
    registered websocket, it propagates the [CancelledError]: the other
    websockets get no close attempt and the registry is not cleared. *)
Theorem on_shutdown_close_cancelled bt co s ws rest :
  clients s = ws :: rest ->
  co ws = Some CancelledError ->
  on_shutdown bt co s =
    (Err CancelledError,
     mkState (ws :: rest) (last_io_stats s) (sample_calls s) (log s ++ [AClose ws])).
Proof.
  intros Hr Hco; unfold on_shutdown.
  rewrite (bind_ok _ _ s tt s)
    by (destruct bt; [apply cancel_and_await_run|reflexivity]).
  rewrite (bind_ok _ _ s (clients s) s) by reflexivity.
  rewrite Hr; unfold bind, close_all, close_swallow, bind, emit; simpl.
  rewrite Hco; simpl; rewrite Hr; reflexivity.
Qed.

Lemma on_shutdown_close_cancelled_witness :
  clients ex_state = [1%nat; 2%nat] /\
  on_shutdown (Some Suspended) (fun _ => Some CancelledError) ex_state =
    (Err CancelledError, mkState [1%nat; 2%nat] (Some ex_io_prev) 0 [AClose 1]).
Proof.
  split; [reflexivity|].
  apply (on_shutdown_close_cancelled (Some Suspended) (fun _ => Some CancelledError)
           ex_state 1 [2%nat]); reflexivity.
Defined.

Lemma startups_running n : startups n (Some Suspended) = (Some Suspended, O).
Proof. induction n as [|n IH]; simpl; [reflexivity|rewrite IH; reflexivity]. Qed.

(** X10: any number of startup hooks creates at most one broadcast task:
    from no task, or from a finished one, the first hook creates a task
    and the later ones (while it runs) create none; with a running task
    no hook creates one. *)
Theorem on_startup_single_task n :
  startups (S n) None = (Some Suspended, 1%nat) /\
  startups (S n) (Some Finished) = (Some Suspended, 1%nat) /\
  startups n (Some Suspended) = (Some Suspended, 0%nat).
Proof.
  simpl; rewrite !startups_running; split; [reflexivity|split; reflexivity].
Qed.

(** *** Configuration *)

Lemma py_split_comma_cons s : exists h t, py_split_comma s = h :: t.
Proof.
  destruct s as [|c rest]; simpl; [eauto|].
  destruct (Ascii.eqb c ","%char); [eauto|].
  destruct (py_split_comma rest); eauto.
Qed.

Lemma concat_cons_char c h t :
  String.concat "," (String c h :: t) = String c (String.concat "," (h :: t)).
Proof. destruct t; reflexivity. Qed.


(** *** The loop with nobody connected *)

(** X12: while no websocket is registered and none connects, the loop
    never calls [get_metrics], sends nothing and leaves the whole state
    unchanged, over any number of ticks. *)
Theorem loop_without_clients_idle I envs s :
  clients s = [] ->
  Forall (fun e => sleep_ops e = []) envs ->
  snd (broadcast_metrics_loop I envs s) = s.
Proof.
  intros Hr HF; revert s Hr; induction HF as [|e envs He HF IH]; intros s Hr;
    simpl; [reflexivity|].
  destruct s as [c io n lg]; simpl in Hr; subst c.
  destruct (cancel_in_sleep e) eqn:Hc.
  - unfold tick, bind at 1, await_point, bind at 1, modify_clients; rewrite He, Hc.
    reflexivity.
  - unfold tick.
    rewrite (bind_ok _ _ _ tt (mkState [] io n lg))
      by (unfold await_point, bind, modify_clients; rewrite He, Hc; reflexivity).
    apply IH; reflexivity.
Qed.

Lemma loop_without_clients_idle_witness :
  clients (mkState [] (Some ex_io_prev) 0 []) = [] /\
  Forall (fun e => sleep_ops e = []) [ex_quiet_env ex_sampling; ex_quiet_env ex_sampling] /\
  snd (broadcast_metrics_loop 2 [ex_quiet_env ex_sampling; ex_quiet_env ex_sampling]
         (mkState [] (Some ex_io_prev) 0 [])) = mkState [] (Some ex_io_prev) 0 [].
Proof.
  split; [reflexivity|split; [repeat constructor|]].
  apply loop_without_clients_idle; [reflexivity|repeat constructor].
Defined.
